(** * gosafecircuit: a shallow embedding of the circuit breaker

    The development follows [gosafecircuit.go].  A [CircuitBreaker] is a
    record with the fields of the Go struct (the mutex apart: the model is
    the behaviour of one call at a time, which is what the lock enforces).
    [Execute], [trip] and [reset] are written in a small monad that threads
    the breaker and collects the effects a call has on the outside world:
    invocations of the wrapped operation, invocations of the hooks and
    sleeps.  The readings of [time.Now()] and the value the operation
    returns are the inputs of a call. *)

From Stdlib Require Import ZArith List String Bool Lia.
Import ListNotations.

Local Open Scope Z_scope.

(** ** Go's [int]: 64-bit two's complement *)

Module GoInt.

Definition min_int : Z := - 2 ^ 63.
Definition max_int : Z := 2 ^ 63 - 1.

Definition in_range (z : Z) : Prop := min_int <= z <= max_int.

(** Result of an [int] operation whose mathematical value is [z]. *)
Definition wrap (z : Z) : Z := (z + 2 ^ 63) mod 2 ^ 64 - 2 ^ 63.

(** [x++] *)
Definition incr (x : Z) : Z := wrap (x + 1).

End GoInt.

(** ** Time

    A [time.Time] is an instant, counted in nanoseconds from the zero value
    [time.Time{}]; a [time.Duration] is a number of nanoseconds. *)

Definition Duration := Z.
Definition Time := Z.

Definition zeroTime : Time := 0.

(** [t.After(u)] *)
Definition After (t u : Time) : bool := u <? t.

(** [t.Add(d)] *)
Definition Add (t : Time) (d : Duration) : Time := t + d.

(** ** Errors, callbacks and effects *)

(** A non-nil [error]; [nil] is [None] in [option error]. *)
Inductive error : Type :=
| errors_New (text : string).

(** A [func()] value, known by an identifier. *)
Definition callback := nat.

Inductive event : Type :=
| EvCall (r : option error)   (* fn() was invoked and returned r *)
| EvHook (f : callback)       (* the callback f was invoked *)
| EvSleep (d : Duration).     (* time.Sleep(d) *)

Inductive State : Type :=
| StateClosed
| StateOpen
| StateHalfOpen.

Record CircuitBreaker : Type := mkCircuitBreaker {
  state : State;
  consecutiveFailures : Z;
  totalFailures : Z;
  totalSuccesses : Z;
  maxFailures : Z;
  timeout : Duration;
  openTimeout : Time;
  pauseTime : Duration;
  consecutiveSuccesses : Z;
  maxConsecutiveSuccesses : Z;
  onOpen : option callback;
  onClose : option callback;
  onHalfOpen : option callback
}.

(** Field assignments. *)

Definition set_state (v : State) (cb : CircuitBreaker) : CircuitBreaker :=
  mkCircuitBreaker v (consecutiveFailures cb) (totalFailures cb)
    (totalSuccesses cb) (maxFailures cb) (timeout cb) (openTimeout cb)
    (pauseTime cb) (consecutiveSuccesses cb) (maxConsecutiveSuccesses cb)
    (onOpen cb) (onClose cb) (onHalfOpen cb).

Definition set_consecutiveFailures (v : Z) (cb : CircuitBreaker) : CircuitBreaker :=
  mkCircuitBreaker (state cb) v (totalFailures cb)
    (totalSuccesses cb) (maxFailures cb) (timeout cb) (openTimeout cb)
    (pauseTime cb) (consecutiveSuccesses cb) (maxConsecutiveSuccesses cb)
    (onOpen cb) (onClose cb) (onHalfOpen cb).

Definition set_totalFailures (v : Z) (cb : CircuitBreaker) : CircuitBreaker :=
  mkCircuitBreaker (state cb) (consecutiveFailures cb) v
    (totalSuccesses cb) (maxFailures cb) (timeout cb) (openTimeout cb)
    (pauseTime cb) (consecutiveSuccesses cb) (maxConsecutiveSuccesses cb)
    (onOpen cb) (onClose cb) (onHalfOpen cb).

Definition set_totalSuccesses (v : Z) (cb : CircuitBreaker) : CircuitBreaker :=
  mkCircuitBreaker (state cb) (consecutiveFailures cb) (totalFailures cb)
    v (maxFailures cb) (timeout cb) (openTimeout cb)
    (pauseTime cb) (consecutiveSuccesses cb) (maxConsecutiveSuccesses cb)
    (onOpen cb) (onClose cb) (onHalfOpen cb).

Definition set_openTimeout (v : Time) (cb : CircuitBreaker) : CircuitBreaker :=
  mkCircuitBreaker (state cb) (consecutiveFailures cb) (totalFailures cb)
    (totalSuccesses cb) (maxFailures cb) (timeout cb) v
    (pauseTime cb) (consecutiveSuccesses cb) (maxConsecutiveSuccesses cb)
    (onOpen cb) (onClose cb) (onHalfOpen cb).

Definition set_consecutiveSuccesses (v : Z) (cb : CircuitBreaker) : CircuitBreaker :=
  mkCircuitBreaker (state cb) (consecutiveFailures cb) (totalFailures cb)
    (totalSuccesses cb) (maxFailures cb) (timeout cb) (openTimeout cb)
    (pauseTime cb) v (maxConsecutiveSuccesses cb)
    (onOpen cb) (onClose cb) (onHalfOpen cb).

(** ** The inputs of one call *)

Record env : Type := mkEnv {
  now_check : Time;          (* what time.Now() returns in the StateOpen case *)
  now_trip : Time;           (* what time.Now() returns inside trip *)
  fn : option error          (* what the wrapped operation returns when invoked *)
}.

(** ** The monad: breaker state and a trace of effects *)

Definition M (A : Type) : Type :=
  CircuitBreaker -> A * CircuitBreaker * list event.

Definition ret {A : Type} (a : A) : M A :=
  fun cb => (a, cb, []).

Definition bind {A B : Type} (m : M A) (k : A -> M B) : M B :=
  fun cb =>
    let '(a, cb1, t1) := m cb in
    let '(b, cb2, t2) := k a cb1 in
    (b, cb2, t1 ++ t2).

Definition get : M CircuitBreaker :=
  fun cb => (cb, cb, []).

Definition modify (f : CircuitBreaker -> CircuitBreaker) : M unit :=
  fun cb => (tt, f cb, []).

Definition emit (e : event) : M unit :=
  fun cb => (tt, cb, [e]).

Declare Scope cb_scope.
Delimit Scope cb_scope with cb.
Notation "x <- m ;; k" := (bind m (fun x => k))
  (at level 61, m at next level, right associativity) : cb_scope.
Notation "m ;; k" := (bind m (fun _ => k))
  (at level 61, right associativity) : cb_scope.
Local Open Scope cb_scope.

(** [if h != nil { h() }] *)
Definition fire (h : CircuitBreaker -> option callback) : M unit :=
  cb <- get ;;
  match h cb with
  | Some f => emit (EvHook f)
  | None => ret tt
  end.

(** [err := fn()] *)
Definition call (e : env) : M (option error) :=
  emit (EvCall (fn e)) ;; ret (fn e).

Definition time_Sleep (d : Duration) : M unit := emit (EvSleep d).

(** ** The breaker's operations *)

Definition NewCircuitBreaker (maxFailures : Z) (timeout pauseTime : Duration)
    (maxConsecutiveSuccesses : Z) : CircuitBreaker :=
  {| state := StateClosed;
     consecutiveFailures := 0;
     totalFailures := 0;
     totalSuccesses := 0;
     maxFailures := maxFailures;
     timeout := timeout;
     openTimeout := zeroTime;
     pauseTime := pauseTime;
     consecutiveSuccesses := 0;
     maxConsecutiveSuccesses := maxConsecutiveSuccesses;
     onOpen := None;
     onClose := None;
     onHalfOpen := None |}.

Definition trip (e : env) : M unit :=
  modify (set_state StateOpen) ;;
  modify (set_consecutiveFailures 0) ;;
  modify (set_consecutiveSuccesses 0) ;;
  cb <- get ;;
  modify (set_openTimeout (Add (now_trip e) (timeout cb))) ;;
  fire onOpen.

Definition reset : M unit :=
  modify (set_state StateClosed) ;;
  modify (set_consecutiveFailures 0) ;;
  modify (set_consecutiveSuccesses 0) ;;
  fire onClose.

Definition breaker_open_error : error :=
  errors_New "circuit breaker is open".

(** The [switch] of [Execute].  [Some r] stands for [return r] inside the
    switch; [None] means that control leaves the switch and reaches the
    statements after it (a Go [case] does not fall into the next one). *)
Definition Execute_switch (e : env) : M (option (option error)) :=
  cb <- get ;;
  match state cb with
  | StateOpen =>
      if After (now_check e) (openTimeout cb) then
        modify (set_state StateHalfOpen) ;;
        fire onHalfOpen ;;
        ret None
      else
        ret (Some (Some breaker_open_error))
  | StateHalfOpen =>
      err <- call e ;;
      match err with
      | None =>
          modify (fun cb => set_consecutiveSuccesses
                              (GoInt.incr (consecutiveSuccesses cb)) cb) ;;
          modify (fun cb => set_totalSuccesses
                              (GoInt.incr (totalSuccesses cb)) cb) ;;
          cb <- get ;;
          if consecutiveSuccesses cb >=? maxConsecutiveSuccesses cb
          then reset else ret tt
      | Some _ => trip e
      end ;;
      cb <- get ;;
      time_Sleep (pauseTime cb) ;;
      ret (Some err)
  | StateClosed => ret None
  end.

(** The statements after the switch. *)
Definition Execute_operation (e : env) : M (option error) :=
  err <- call e ;;
  match err with
  | None =>
      reset ;;
      modify (fun cb => set_totalSuccesses (GoInt.incr (totalSuccesses cb)) cb)
  | Some _ =>
      modify (fun cb => set_consecutiveFailures
                          (GoInt.incr (consecutiveFailures cb)) cb) ;;
      modify (fun cb => set_totalFailures (GoInt.incr (totalFailures cb)) cb) ;;
      cb <- get ;;
      if consecutiveFailures cb >=? maxFailures cb then trip e else ret tt
  end ;;
  ret err.

Definition Execute (e : env) : M (option error) :=
  r <- Execute_switch e ;;
  match r with
  | Some err => ret err
  | None => Execute_operation e
  end.

Definition SetOnOpen (f : callback) (cb : CircuitBreaker) : CircuitBreaker :=
  mkCircuitBreaker (state cb) (consecutiveFailures cb) (totalFailures cb)
    (totalSuccesses cb) (maxFailures cb) (timeout cb) (openTimeout cb)
    (pauseTime cb) (consecutiveSuccesses cb) (maxConsecutiveSuccesses cb)
    (Some f) (onClose cb) (onHalfOpen cb).

Definition SetOnClose (f : callback) (cb : CircuitBreaker) : CircuitBreaker :=
  mkCircuitBreaker (state cb) (consecutiveFailures cb) (totalFailures cb)
    (totalSuccesses cb) (maxFailures cb) (timeout cb) (openTimeout cb)
    (pauseTime cb) (consecutiveSuccesses cb) (maxConsecutiveSuccesses cb)
    (onOpen cb) (Some f) (onHalfOpen cb).

Definition SetOnHalfOpen (f : callback) (cb : CircuitBreaker) : CircuitBreaker :=
  mkCircuitBreaker (state cb) (consecutiveFailures cb) (totalFailures cb)
    (totalSuccesses cb) (maxFailures cb) (timeout cb) (openTimeout cb)
    (pauseTime cb) (consecutiveSuccesses cb) (maxConsecutiveSuccesses cb)
    (onOpen cb) (onClose cb) (Some f).

(** ** Reading the outcome of a call *)

Definition returned {A : Type} (r : A * CircuitBreaker * list event) : A :=
  fst (fst r).
Definition after {A : Type} (r : A * CircuitBreaker * list event) : CircuitBreaker :=
  snd (fst r).
Definition trace {A : Type} (r : A * CircuitBreaker * list event) : list event :=
  snd r.

(** The events of invoking an optional hook. *)
Definition fired (h : option callback) : list event :=
  match h with
  | Some f => [EvHook f]
  | None => []
  end.

Definition is_call (ev : event) : bool :=
  match ev with EvCall _ => true | _ => false end.

Definition is_failed_call (ev : event) : bool :=
  match ev with EvCall (Some _) => true | _ => false end.

Definition is_succeeded_call (ev : event) : bool :=
  match ev with EvCall None => true | _ => false end.

Definition is_hook (ev : event) : bool :=
  match ev with EvHook _ => true | _ => false end.

Definition is_sleep (ev : event) : bool :=
  match ev with EvSleep _ => true | _ => false end.

(** Number of invocations of the wrapped operation in a trace. *)
Definition invocations (t : list event) : nat :=
  List.length (filter is_call t).

(** ** Sequences of calls *)

(** The breaker after the calls [es], and the effects of all of them. *)
Fixpoint run (cb : CircuitBreaker) (es : list env) : CircuitBreaker * list event :=
  match es with
  | [] => (cb, [])
  | e :: es' =>
      let r := Execute e cb in
      let '(cb', t) := run (after r) es' in
      (cb', trace r ++ t)
  end.

(** The values the calls [es] return, in order. *)
Fixpoint results (cb : CircuitBreaker) (es : list env) : list (option error) :=
  match es with
  | [] => []
  | e :: es' =>
      let r := Execute e cb in
      returned r :: results (after r) es'
  end.

Definition final (cb : CircuitBreaker) (es : list env) : CircuitBreaker :=
  fst (run cb es).

Definition effects (cb : CircuitBreaker) (es : list env) : list event :=
  snd (run cb es).

(** The fast-fail path: Open, and the time read is not after [openTimeout]. *)
Definition fast_fail (e : env) (cb : CircuitBreaker) : bool :=
  match state cb with
  | StateOpen => negb (After (now_check e) (openTimeout cb))
  | _ => false
  end.

(** A call has tripped the breaker when the operation was invoked, failed,
    and the breaker is Open afterwards.  (A call that finds the breaker Open
    and invokes the operation has first moved it to HalfOpen, so the breaker
    is Open after a failed invocation only through [trip].) *)
Definition tripped (r : option error * CircuitBreaker * list event) : bool :=
  existsb is_failed_call (trace r) &&
  match state (after r) with StateOpen => true | _ => false end.

(** The value [openTimeout] was given by the most recent call of [es] that
    tripped the breaker, or [v] when none did. *)
Fixpoint last_trip (cb : CircuitBreaker) (es : list env) (v : Time) : Time :=
  match es with
  | [] => v
  | e :: es' =>
      let r := Execute e cb in
      last_trip (after r) es'
        (if tripped r then Add (now_trip e) (timeout cb) else v)
  end.

(** The operation of the call [e] returns a non-nil error. *)
Definition fails (e : env) : Prop := fn e <> None.

(** ** Concrete inputs used by the examples *)

Definition boom : error := errors_New "boom".

(** A call at time [t] whose operation fails, and one whose operation succeeds. *)
Definition failing (t : Time) : env := mkEnv t t (Some boom).
Definition succeeding (t : Time) : env := mkEnv t t None.

(** [NewCircuitBreaker(2, 0, 0, 1)], the configuration of the scenarios. *)
Definition cb_2_1 : CircuitBreaker := NewCircuitBreaker 2 0 0 1.

(** [NewCircuitBreaker(2, 0, 0, 2)]. *)
Definition cb_2_2 : CircuitBreaker := NewCircuitBreaker 2 0 0 2.

(** A breaker that is Open until time 100. *)
Definition cb_open : CircuitBreaker :=
  set_openTimeout 100 (set_state StateOpen (NewCircuitBreaker 3 50 5 2)).

(** A breaker in the HalfOpen state with one success counted, all hooks set. *)
Definition cb_half : CircuitBreaker :=
  SetOnOpen 1%nat (SetOnClose 2%nat (SetOnHalfOpen 3%nat
    (set_consecutiveSuccesses 1
      (set_openTimeout 100 (set_state StateHalfOpen (NewCircuitBreaker 3 50 5 4)))))).

(** [NewCircuitBreaker(3, 50, 5, 2)] with an [onOpen] hook. *)
Definition cb_3 : CircuitBreaker := SetOnOpen 9%nat (NewCircuitBreaker 3 50 5 2).

(** A fresh breaker with an [onClose] hook. *)
Definition cb_hooked : CircuitBreaker :=
  SetOnClose 7%nat (NewCircuitBreaker 2 0 0 1).

(** ** Notions used to state properties of runs *)

(** The operation of the call [e] returns nil. *)
Definition succeeds (e : env) : Prop := fn e = None.

(** The breaker [cb] with the three hook fields replaced. *)
Definition set_hooks (o c h : option callback) (cb : CircuitBreaker) : CircuitBreaker :=
  mkCircuitBreaker (state cb) (consecutiveFailures cb) (totalFailures cb)
    (totalSuccesses cb) (maxFailures cb) (timeout cb) (openTimeout cb)
    (pauseTime cb) (consecutiveSuccesses cb) (maxConsecutiveSuccesses cb)
    o c h.

(** The call finds the breaker Open with [openTimeout] passed. *)
Definition admits_probe (e : env) (cb : CircuitBreaker) : bool :=
  match state cb with
  | StateOpen => After (now_check e) (openTimeout cb)
  | _ => false
  end.

(** A call has closed the breaker through [reset] when the operation was
    invoked, returned nil, and the breaker is Closed afterwards. *)
Definition closed_by (r : option error * CircuitBreaker * list event) : bool :=
  existsb is_succeeded_call (trace r) &&
  match state (after r) with StateClosed => true | _ => false end.

(** What the two consecutive counters satisfy between calls. *)
Definition counters_ok (cb : CircuitBreaker) : Prop :=
  0 <= consecutiveFailures cb /\
  0 <= consecutiveSuccesses cb /\
  (consecutiveFailures cb = 0 \/ consecutiveFailures cb < maxFailures cb) /\
  (consecutiveSuccesses cb = 0 \/
   consecutiveSuccesses cb < maxConsecutiveSuccesses cb) /\
  (state cb = StateOpen ->
   consecutiveFailures cb = 0 /\ consecutiveSuccesses cb = 0) /\
  (state cb = StateClosed -> consecutiveSuccesses cb = 0).

(** The length of the streak of failures at the end of the calls [es],
    when [c] failures in a row precede them. *)
Fixpoint streak (c : Z) (es : list env) : Z :=
  match es with
  | [] => c
  | e :: es' =>
      match fn e with
      | None => streak 0 es'
      | Some _ => streak (c + 1) es'
      end
  end.

(** No streak of failures in [es] reaches [mf], when [c] failures in a row
    precede the calls. *)
Fixpoint below (mf c : Z) (es : list env) : bool :=
  match es with
  | [] => true
  | e :: es' =>
      match fn e with
      | None => below mf 0 es'
      | Some _ => (c + 1 <? mf) && below mf (c + 1) es'
      end
  end.

(** The hook invocations of a run in which the breaker stays Closed: the
    one of [h] at every success. *)
Definition hooks_of_successes (h : option callback) (es : list env) : list event :=
  flat_map (fun e => match fn e with None => fired h | Some _ => [] end) es.

(** A breaker in the HalfOpen state with no success counted. *)
Definition cb_probing : CircuitBreaker :=
  SetOnClose 4%nat
    (set_openTimeout 100 (set_state StateHalfOpen (NewCircuitBreaker 3 50 5 2))).

(** * Properties *)

(** ** Go integers *)

Lemma wrap_in_range (z : Z) : GoInt.in_range z -> GoInt.wrap z = z.
Proof.
  unfold GoInt.in_range, GoInt.wrap, GoInt.min_int, GoInt.max_int. intros H.
  rewrite Z.mod_small; lia.
Qed.

Lemma incr_small (x : Z) :
  GoInt.min_int <= x < GoInt.max_int -> GoInt.incr x = x + 1.
Proof.
  intros H. unfold GoInt.incr. apply wrap_in_range.
  unfold GoInt.in_range, GoInt.min_int, GoInt.max_int in *. lia.
Qed.

Lemma incr_max : GoInt.incr GoInt.max_int = GoInt.min_int.
Proof. reflexivity. Qed.

(** ** Running one call symbolically *)

Ltac exec :=
  cbv [Execute Execute_switch Execute_operation trip reset fire call
       time_Sleep bind ret get modify emit
       set_state set_consecutiveFailures set_totalFailures
       set_totalSuccesses set_openTimeout set_consecutiveSuccesses
       state consecutiveFailures totalFailures totalSuccesses maxFailures
       timeout openTimeout pauseTime consecutiveSuccesses
       maxConsecutiveSuccesses onOpen onClose onHalfOpen
       returned after trace fired fst snd app].

(** The outcome of the statements after the switch, on a failure. *)
Lemma Execute_operation_failure (e : env) (cb : CircuitBreaker) (err : error) :
  fn e = Some err ->
  Execute_operation e cb =
    let cb1 := set_totalFailures (GoInt.incr (totalFailures cb))
                 (set_consecutiveFailures (GoInt.incr (consecutiveFailures cb)) cb) in
    if consecutiveFailures cb1 >=? maxFailures cb1
    then (Some err,
          set_openTimeout (Add (now_trip e) (timeout cb))
            (set_consecutiveSuccesses 0
              (set_consecutiveFailures 0 (set_state StateOpen cb1))),
          EvCall (Some err) :: fired (onOpen cb))
    else (Some err, cb1, [EvCall (Some err)]).
Proof.
  intros Hfn. destruct cb. exec. rewrite Hfn.
  destruct (_ >=? _); destruct onOpen0; reflexivity.
Qed.

(** The outcome of the statements after the switch, on a success. *)
Lemma Execute_operation_success (e : env) (cb : CircuitBreaker) :
  fn e = None ->
  Execute_operation e cb =
    (None,
     set_totalSuccesses (GoInt.incr (totalSuccesses cb))
       (set_consecutiveSuccesses 0
         (set_consecutiveFailures 0 (set_state StateClosed cb))),
     EvCall None :: fired (onClose cb)).
Proof.
  intros Hfn. destruct cb. exec. rewrite Hfn.
  destruct onClose0; reflexivity.
Qed.

(** In the Closed state the switch does nothing. *)
Lemma Execute_closed (e : env) (cb : CircuitBreaker) :
  state cb = StateClosed -> Execute e cb = Execute_operation e cb.
Proof.
  intros Hst. destruct cb. simpl in Hst. subst.
  unfold Execute, Execute_switch, bind, get, ret; simpl.
  destruct (Execute_operation e _) as [[r cb'] t]. reflexivity.
Qed.

(** In the Open state, once [openTimeout] has passed, the switch moves the
    breaker to HalfOpen, fires [onHalfOpen] and leaves the call to the
    statements after the switch. *)
Lemma Execute_open_elapsed (e : env) (cb : CircuitBreaker) :
  state cb = StateOpen ->
  After (now_check e) (openTimeout cb) = true ->
  Execute e cb =
    let r := Execute_operation e (set_state StateHalfOpen cb) in
    (returned r, after r, fired (onHalfOpen cb) ++ trace r).
Proof.
  intros Hst Haft. destruct cb. simpl in Hst, Haft. subst.
  unfold Execute, Execute_switch, bind, get, ret, modify, fire, emit; simpl.
  rewrite Haft.
  destruct onHalfOpen0; simpl;
    destruct (Execute_operation e _) as [[r cb'] t]; reflexivity.
Qed.

(** ** The fast-fail path *)

(** C4. A call that finds the breaker Open at a time that is not after
    [openTimeout] returns the error "circuit breaker is open", does not
    invoke the operation (it has no effect at all) and leaves every field
    of the breaker as it was. *)
Theorem Execute_open_rejects (e : env) (cb : CircuitBreaker) :
  state cb = StateOpen ->
  now_check e <= openTimeout cb ->
  returned (Execute e cb) = Some (errors_New "circuit breaker is open") /\
  invocations (trace (Execute e cb)) = 0%nat /\
  trace (Execute e cb) = [] /\
  after (Execute e cb) = cb.
Proof.
  intros Hst Hle.
  assert (Haft : After (now_check e) (openTimeout cb) = false).
  { unfold After. apply Z.ltb_ge. exact Hle. }
  destruct cb. simpl in Hst, Haft. subst.
  exec. rewrite Haft. repeat split.
Qed.

Lemma Execute_open_rejects_witness :
  returned (Execute (failing 100) cb_open)
    = Some (errors_New "circuit breaker is open") /\
  invocations (trace (Execute (failing 100) cb_open)) = 0%nat /\
  trace (Execute (failing 100) cb_open) = [] /\
  after (Execute (failing 100) cb_open) = cb_open.
Proof.
  apply Execute_open_rejects.
  - reflexivity.
  - vm_compute. discriminate.
Defined.

(** ** Calls entered in the HalfOpen state *)

(** C6. A call entered in the HalfOpen state whose probe fails trips the
    breaker, whatever [consecutiveSuccesses] was: the state becomes Open,
    both consecutive counters are 0, [openTimeout] is the time read in
    [trip] plus [timeout], and [onOpen] is invoked when it is set (after
    the probe and before the pause). *)
Theorem Execute_half_open_failure (e : env) (cb : CircuitBreaker) (err : error) :
  state cb = StateHalfOpen ->
  fn e = Some err ->
  returned (Execute e cb) = Some err /\
  state (after (Execute e cb)) = StateOpen /\
  consecutiveSuccesses (after (Execute e cb)) = 0 /\
  consecutiveFailures (after (Execute e cb)) = 0 /\
  openTimeout (after (Execute e cb)) = Add (now_trip e) (timeout cb) /\
  trace (Execute e cb)
    = EvCall (Some err) :: fired (onOpen cb) ++ [EvSleep (pauseTime cb)] /\
  (forall f, onOpen cb = Some f -> In (EvHook f) (trace (Execute e cb))).
Proof.
  intros Hst Hfn. destruct cb. simpl in Hst. subst.
  exec. rewrite Hfn.
  destruct onOpen0 as [g|]; cbn; repeat split; try reflexivity.
  - intros f Hf. injection Hf as ->. right. left. reflexivity.
  - intros f Hf. discriminate Hf.
Qed.

Lemma Execute_half_open_failure_witness :
  returned (Execute (failing 200) cb_half) = Some boom /\
  state (after (Execute (failing 200) cb_half)) = StateOpen /\
  consecutiveSuccesses (after (Execute (failing 200) cb_half)) = 0 /\
  consecutiveFailures (after (Execute (failing 200) cb_half)) = 0 /\
  openTimeout (after (Execute (failing 200) cb_half)) = Add 200 50 /\
  trace (Execute (failing 200) cb_half)
    = EvCall (Some boom) :: fired (Some 1%nat) ++ [EvSleep 5] /\
  (forall f, onOpen cb_half = Some f ->
             In (EvHook f) (trace (Execute (failing 200) cb_half))).
Proof.
  apply (Execute_half_open_failure (failing 200) cb_half boom).
  - reflexivity.
  - reflexivity.
Defined.

(** C9. A call entered in the HalfOpen state whose probe succeeds while the
    incremented [consecutiveSuccesses] is still below
    [maxConsecutiveSuccesses] leaves the breaker HalfOpen, leaves
    [consecutiveFailures], [maxFailures], [timeout], [pauseTime] and
    [openTimeout] as they were, and invokes no hook: the effects of the
    call are the probe and the pause. *)
Theorem Execute_half_open_success_below (e : env) (cb : CircuitBreaker) :
  state cb = StateHalfOpen ->
  fn e = None ->
  GoInt.incr (consecutiveSuccesses cb) < maxConsecutiveSuccesses cb ->
  state (after (Execute e cb)) = StateHalfOpen /\
  consecutiveSuccesses (after (Execute e cb))
    = GoInt.incr (consecutiveSuccesses cb) /\
  consecutiveFailures (after (Execute e cb)) = consecutiveFailures cb /\
  maxFailures (after (Execute e cb)) = maxFailures cb /\
  timeout (after (Execute e cb)) = timeout cb /\
  pauseTime (after (Execute e cb)) = pauseTime cb /\
  openTimeout (after (Execute e cb)) = openTimeout cb /\
  filter is_hook (trace (Execute e cb)) = [] /\
  trace (Execute e cb) = [EvCall None; EvSleep (pauseTime cb)].
Proof.
  intros Hst Hfn Hlt.
  assert (Hge : (GoInt.incr (consecutiveSuccesses cb)
                   >=? maxConsecutiveSuccesses cb) = false).
  { rewrite Z.geb_leb. apply Z.leb_gt. exact Hlt. }
  destruct cb. simpl in Hst, Hge. subst.
  exec. rewrite Hfn. rewrite Hge. repeat split.
Qed.

Lemma Execute_half_open_success_below_witness :
  state (after (Execute (succeeding 200) cb_half)) = StateHalfOpen /\
  consecutiveSuccesses (after (Execute (succeeding 200) cb_half))
    = GoInt.incr 1 /\
  consecutiveFailures (after (Execute (succeeding 200) cb_half)) = 0 /\
  maxFailures (after (Execute (succeeding 200) cb_half)) = 3 /\
  timeout (after (Execute (succeeding 200) cb_half)) = 50 /\
  pauseTime (after (Execute (succeeding 200) cb_half)) = 5 /\
  openTimeout (after (Execute (succeeding 200) cb_half)) = 100 /\
  filter is_hook (trace (Execute (succeeding 200) cb_half)) = [] /\
  trace (Execute (succeeding 200) cb_half) = [EvCall None; EvSleep 5].
Proof.
  apply (Execute_half_open_success_below (succeeding 200) cb_half).
  - reflexivity.
  - reflexivity.
  - vm_compute. reflexivity.
Defined.

(** ** Number of invocations *)

(** C8. One call invokes the wrapped operation exactly once, except on the
    fast-fail path, where it does not invoke it; a call that moves the
    breaker from Open to HalfOpen invokes it once. *)
Theorem Execute_invocations (e : env) (cb : CircuitBreaker) :
  invocations (trace (Execute e cb)) = (if fast_fail e cb then 0 else 1)%nat /\
  (state cb = StateOpen ->
   After (now_check e) (openTimeout cb) = true ->
   invocations (trace (Execute e cb)) = 1%nat).
Proof.
  assert (H : invocations (trace (Execute e cb))
              = (if fast_fail e cb then 0 else 1)%nat).
  { unfold fast_fail. destruct cb as [st cF tF tS mF to oT pT cS mS hO hC hH].
    destruct st; exec.
    - destruct (fn e); [destruct (_ >=? _) |]; try destruct hO; try destruct hC;
        reflexivity.
    - destruct (After (now_check e) oT); [| reflexivity].
      destruct hH; destruct (fn e); try destruct (_ >=? _);
        try destruct hO; try destruct hC; reflexivity.
    - destruct (fn e); [| destruct (_ >=? _)]; try destruct hO; try destruct hC;
        reflexivity. }
  split; [exact H |].
  intros Hst Haft. rewrite H. unfold fast_fail. rewrite Hst, Haft. reflexivity.
Qed.

Lemma Execute_invocations_witness :
  invocations (trace (Execute (failing 200) cb_open)) = 1%nat.
Proof.
  apply (proj2 (Execute_invocations (failing 200) cb_open)).
  - reflexivity.
  - reflexivity.
Defined.

(** ** A success in the Closed state *)

(** C7, as stated, fails: a success in the Closed state goes through
    [reset], which invokes [onClose] whenever it is set.  On a fresh
    breaker with the hook 7 installed, one successful call invokes it. *)
Lemma Execute_closed_success_fires_onClose :
  state cb_hooked = StateClosed /\
  fn (succeeding 5) = None /\
  onClose cb_hooked = Some 7%nat /\
  trace (Execute (succeeding 5) cb_hooked) = [EvCall None; EvHook 7%nat].
Proof. repeat split. Qed.

(** C7, amended. A call entered in the Closed state whose operation
    succeeds returns nil, keeps the state Closed, sets both consecutive
    counters to 0, increments [totalSuccesses], changes nothing else, and
    invokes [onClose] when it is set, although the breaker was already
    closed. *)
Theorem Execute_closed_success (e : env) (cb : CircuitBreaker) :
  state cb = StateClosed ->
  fn e = None ->
  returned (Execute e cb) = None /\
  state (after (Execute e cb)) = StateClosed /\
  consecutiveFailures (after (Execute e cb)) = 0 /\
  consecutiveSuccesses (after (Execute e cb)) = 0 /\
  totalSuccesses (after (Execute e cb)) = GoInt.incr (totalSuccesses cb) /\
  totalFailures (after (Execute e cb)) = totalFailures cb /\
  openTimeout (after (Execute e cb)) = openTimeout cb /\
  trace (Execute e cb) = EvCall None :: fired (onClose cb).
Proof.
  intros Hst Hfn.
  rewrite (Execute_closed e cb Hst), (Execute_operation_success e cb Hfn).
  destruct cb. repeat split.
Qed.

Lemma Execute_closed_success_witness :
  returned (Execute (succeeding 5) cb_hooked) = None /\
  state (after (Execute (succeeding 5) cb_hooked)) = StateClosed /\
  consecutiveFailures (after (Execute (succeeding 5) cb_hooked)) = 0 /\
  consecutiveSuccesses (after (Execute (succeeding 5) cb_hooked)) = 0 /\
  totalSuccesses (after (Execute (succeeding 5) cb_hooked)) = GoInt.incr 0 /\
  totalFailures (after (Execute (succeeding 5) cb_hooked)) = 0 /\
  openTimeout (after (Execute (succeeding 5) cb_hooked)) = zeroTime /\
  trace (Execute (succeeding 5) cb_hooked) = EvCall None :: fired (Some 7%nat).
Proof.
  apply (Execute_closed_success (succeeding 5) cb_hooked).
  - reflexivity.
  - reflexivity.
Defined.

(** ** Runs of calls *)

Lemma run_app (es1 es2 : list env) : forall cb,
  run cb (es1 ++ es2) =
    (final (final cb es1) es2, effects cb es1 ++ effects (final cb es1) es2).
Proof.
  unfold final, effects.
  induction es1 as [| e es1 IH]; intros cb; simpl.
  - destruct (run cb es2). reflexivity.
  - rewrite IH.
    destruct (run (after (Execute e cb)) es1) as [cb1 t1]; simpl.
    rewrite app_assoc. reflexivity.
Qed.

Lemma final_app (es1 es2 : list env) (cb : CircuitBreaker) :
  final cb (es1 ++ es2) = final (final cb es1) es2.
Proof. unfold final at 1. rewrite run_app. reflexivity. Qed.

Lemma effects_app (es1 es2 : list env) (cb : CircuitBreaker) :
  effects cb (es1 ++ es2) = effects cb es1 ++ effects (final cb es1) es2.
Proof. unfold effects at 1. rewrite run_app. reflexivity. Qed.

Lemma final_cons (e : env) (es : list env) (cb : CircuitBreaker) :
  final cb (e :: es) = final (after (Execute e cb)) es.
Proof.
  unfold final; simpl. destruct (run (after (Execute e cb)) es). reflexivity.
Qed.

Lemma effects_cons (e : env) (es : list env) (cb : CircuitBreaker) :
  effects cb (e :: es) = trace (Execute e cb) ++ effects (after (Execute e cb)) es.
Proof.
  unfold effects; simpl. destruct (run (after (Execute e cb)) es). reflexivity.
Qed.

(** A failure in the Closed state that does not reach [maxFailures]. *)
Lemma Execute_closed_failure_below (e : env) (cb : CircuitBreaker) :
  state cb = StateClosed ->
  fails e ->
  0 <= consecutiveFailures cb ->
  consecutiveFailures cb + 1 < maxFailures cb ->
  maxFailures cb <= GoInt.max_int ->
  after (Execute e cb)
    = set_totalFailures (GoInt.incr (totalFailures cb))
        (set_consecutiveFailures (consecutiveFailures cb + 1) cb) /\
  trace (Execute e cb) = [EvCall (fn e)].
Proof.
  intros Hst Hf H0 Hlt Hmax.
  destruct (fn e) as [err|] eqn:Hfn; [| exfalso; apply Hf; exact Hfn].
  rewrite (Execute_closed e cb Hst), (Execute_operation_failure e cb err Hfn).
  assert (Hinc : GoInt.incr (consecutiveFailures cb) = consecutiveFailures cb + 1).
  { apply incr_small. unfold GoInt.min_int, GoInt.max_int in *. lia. }
  cbv zeta. destruct cb; simpl in *. rewrite Hinc.
  assert (Hge : (consecutiveFailures0 + 1 >=? maxFailures0) = false).
  { rewrite Z.geb_leb. apply Z.leb_gt. lia. }
  rewrite Hge. split; reflexivity.
Qed.

(** The failure in the Closed state that reaches [maxFailures]. *)
Lemma Execute_closed_failure_reaching (e : env) (cb : CircuitBreaker) :
  state cb = StateClosed ->
  fails e ->
  0 <= consecutiveFailures cb ->
  maxFailures cb <= consecutiveFailures cb + 1 ->
  consecutiveFailures cb < GoInt.max_int ->
  after (Execute e cb)
    = set_openTimeout (Add (now_trip e) (timeout cb))
        (set_consecutiveSuccesses 0
          (set_consecutiveFailures 0
            (set_state StateOpen
              (set_totalFailures (GoInt.incr (totalFailures cb)) cb)))) /\
  trace (Execute e cb) = EvCall (fn e) :: fired (onOpen cb).
Proof.
  intros Hst Hf H0 Hle Hmax.
  destruct (fn e) as [err|] eqn:Hfn; [| exfalso; apply Hf; exact Hfn].
  rewrite (Execute_closed e cb Hst), (Execute_operation_failure e cb err Hfn).
  assert (Hinc : GoInt.incr (consecutiveFailures cb) = consecutiveFailures cb + 1).
  { apply incr_small. unfold GoInt.min_int, GoInt.max_int in *. lia. }
  cbv zeta. destruct cb; simpl in *. rewrite Hinc.
  assert (Hge : (consecutiveFailures0 + 1 >=? maxFailures0) = true).
  { rewrite Z.geb_leb. apply Z.leb_le. lia. }
  rewrite Hge. split; reflexivity.
Qed.

(** Failures in the Closed state below the threshold keep the breaker
    Closed, count, and invoke no hook. *)
Lemma run_closed_failures_below (es : list env) : forall cb,
  state cb = StateClosed ->
  Forall fails es ->
  0 <= consecutiveFailures cb ->
  consecutiveFailures cb + Z.of_nat (List.length es) < maxFailures cb ->
  maxFailures cb <= GoInt.max_int ->
  state (final cb es) = StateClosed /\
  consecutiveFailures (final cb es)
    = consecutiveFailures cb + Z.of_nat (List.length es) /\
  consecutiveSuccesses (final cb es) = consecutiveSuccesses cb /\
  maxFailures (final cb es) = maxFailures cb /\
  timeout (final cb es) = timeout cb /\
  openTimeout (final cb es) = openTimeout cb /\
  onOpen (final cb es) = onOpen cb /\
  filter is_hook (effects cb es) = [].
Proof.
  induction es as [| e es IH]; intros cb Hst Hall H0 Hlt Hmax.
  - unfold final, effects; simpl. rewrite Z.add_0_r. repeat split; assumption.
  - inversion Hall as [| ? ? He Hes]; subst.
    change (List.length (e :: es)) with (S (List.length es)) in *.
    rewrite Nat2Z.inj_succ in *.
    destruct (Execute_closed_failure_below e cb Hst He H0 ltac:(lia) Hmax)
      as [Hafter Htrace].
    rewrite final_cons, effects_cons, Hafter, Htrace.
    specialize (IH (set_totalFailures (GoInt.incr (totalFailures cb))
                      (set_consecutiveFailures (consecutiveFailures cb + 1) cb))).
    destruct cb; simpl in *.
    destruct IH as (I1 & I2 & I3 & I4 & I5 & I6 & I7 & I8);
      [assumption | assumption | lia | lia | assumption |].
    rewrite I1, I2, I3, I4, I5, I6, I7.
    destruct (fn e); simpl; rewrite I8; repeat split; lia.
Qed.

Lemma final_one (e : env) (cb : CircuitBreaker) :
  final cb [e] = after (Execute e cb).
Proof. rewrite final_cons. reflexivity. Qed.

Lemma effects_one (e : env) (cb : CircuitBreaker) :
  effects cb [e] = trace (Execute e cb).
Proof. rewrite effects_cons. unfold effects; simpl. apply app_nil_r. Qed.

Lemma filter_is_hook_fired (h : option callback) :
  filter is_hook (fired h) = fired h.
Proof. destruct h; reflexivity. Qed.

(** C5. Take a Closed breaker with no failure counted and a threshold
    [maxFailures >= 1], and [maxFailures] calls that all fail.  After every
    proper prefix of the run the breaker is still Closed and no hook has
    been invoked; after the last call it is Open, the only hook invocation
    of the whole run is the one of [onOpen] (when set), both consecutive
    counters are 0, and [openTimeout] is the time read in [trip] by the
    last call plus [timeout]. *)
Theorem run_maxFailures_failures (cb : CircuitBreaker) (es : list env) :
  state cb = StateClosed ->
  consecutiveFailures cb = 0 ->
  1 <= maxFailures cb <= GoInt.max_int ->
  Z.of_nat (List.length es) = maxFailures cb ->
  Forall fails es ->
  (forall k, (k < List.length es)%nat ->
     state (final cb (firstn k es)) = StateClosed /\
     filter is_hook (effects cb (firstn k es)) = []) /\
  state (final cb es) = StateOpen /\
  filter is_hook (effects cb es) = fired (onOpen cb) /\
  consecutiveFailures (final cb es) = 0 /\
  consecutiveSuccesses (final cb es) = 0 /\
  openTimeout (final cb es)
    = Add (now_trip (last es (failing 0))) (timeout cb).
Proof.
  intros Hst Hcf Hmf Hlen Hall.
  split.
  - intros k Hk.
    assert (Hlenk : List.length (firstn k es) = k)
      by (apply firstn_length_le; lia).
    destruct (run_closed_failures_below (firstn k es) cb) as (P1 & _ & _ & _ & _ & _ & _ & P8).
    + exact Hst.
    + rewrite <- (firstn_skipn k es) in Hall.
      apply Forall_app in Hall. exact (proj1 Hall).
    + lia.
    + rewrite Hlenk. lia.
    + lia.
    + split; assumption.
  - assert (Hne : es <> []).
    { intros ->. simpl in Hlen. lia. }
    destruct (exists_last Hne) as (es' & e & ->).
    rewrite length_app in Hlen. simpl in Hlen.
    apply Forall_app in Hall. destruct Hall as [Hall' He].
    inversion He as [| ? ? Hfe _]; subst.
    destruct (run_closed_failures_below es' cb Hst Hall')
      as (P1 & P2 & P3 & P4 & P5 & P6 & P7 & P8); [lia | lia | lia |].
    destruct (Execute_closed_failure_reaching e (final cb es') P1 Hfe)
      as [Hafter Htrace]; [lia | lia | lia |].
    rewrite final_app, effects_app, final_one, effects_one, Hafter, Htrace.
    rewrite filter_app, P8, last_last, P5, P7.
    destruct (fn e); simpl; rewrite filter_is_hook_fired;
      destruct (final cb es'); repeat split.
Qed.

Lemma run_maxFailures_failures_witness :
  (forall k, (k < 3)%nat ->
     state (final cb_3 (firstn k [failing 10; failing 20; failing 30]))
       = StateClosed /\
     filter is_hook
       (effects cb_3 (firstn k [failing 10; failing 20; failing 30])) = []) /\
  state (final cb_3 [failing 10; failing 20; failing 30]) = StateOpen /\
  filter is_hook (effects cb_3 [failing 10; failing 20; failing 30])
    = [EvHook 9%nat] /\
  consecutiveFailures (final cb_3 [failing 10; failing 20; failing 30]) = 0 /\
  consecutiveSuccesses (final cb_3 [failing 10; failing 20; failing 30]) = 0 /\
  openTimeout (final cb_3 [failing 10; failing 20; failing 30]) = Add 30 50.
Proof.
  apply (run_maxFailures_failures cb_3 [failing 10; failing 20; failing 30]).
  - reflexivity.
  - reflexivity.
  - vm_compute. split; discriminate.
  - reflexivity.
  - repeat constructor; discriminate.
Defined.

(** ** Who writes [openTimeout] *)

Lemma reset_openTimeout (cb : CircuitBreaker) :
  openTimeout (after (reset cb)) = openTimeout cb.
Proof. destruct cb as [st cF tF tS mF to oT pT cS mS hO hC hH]. destruct hC; reflexivity. Qed.

Lemma trip_openTimeout (e : env) (cb : CircuitBreaker) :
  openTimeout (after (trip e cb)) = Add (now_trip e) (timeout cb).
Proof. destruct cb as [st cF tF tS mF to oT pT cS mS hO hC hH]. destruct hO; reflexivity. Qed.

(** One call leaves [openTimeout] alone unless it trips the breaker. *)
Lemma Execute_openTimeout (e : env) (cb : CircuitBreaker) :
  openTimeout (after (Execute e cb))
    = if tripped (Execute e cb) then Add (now_trip e) (timeout cb)
      else openTimeout cb.
Proof.
  destruct cb as [st cF tF tS mF to oT pT cS mS hO hC hH].
  destruct st; exec.
  - destruct (fn e); [destruct (_ >=? _) |]; try destruct hO; try destruct hC;
      reflexivity.
  - destruct (After (now_check e) oT); [| reflexivity].
    destruct hH; destruct (fn e); try destruct (_ >=? _);
      try destruct hO; try destruct hC; reflexivity.
  - destruct (fn e); [| destruct (_ >=? _)]; try destruct hO; try destruct hC;
      reflexivity.
Qed.

Lemma tripped_open (r : option error * CircuitBreaker * list event) :
  tripped r = true -> state (after r) = StateOpen.
Proof.
  unfold tripped. intros H. apply andb_prop in H. destruct H as [_ H].
  destruct (state (after r)); [discriminate | reflexivity | discriminate].
Qed.

Lemma run_openTimeout (es : list env) : forall cb,
  openTimeout (final cb es) = last_trip cb es (openTimeout cb).
Proof.
  induction es as [| e es IH]; intros cb.
  - reflexivity.
  - rewrite final_cons, IH, Execute_openTimeout. reflexivity.
Qed.

(** C10. [reset] does not write [openTimeout]; [trip] sets it to the time
    it reads plus [timeout]; [NewCircuitBreaker] sets it to the zero time;
    the hook setters leave it alone.  One call of [Execute] changes it only
    by tripping, so a call that ends in the Closed state leaves it as it
    was; and after any run of calls on a new breaker it is the value given
    by the most recent trip, or the zero time when the breaker never
    tripped. *)
Theorem openTimeout_written_by_trip_only :
  (forall cb, openTimeout (after (reset cb)) = openTimeout cb) /\
  (forall e cb, openTimeout (after (trip e cb)) = Add (now_trip e) (timeout cb)) /\
  (forall mf to pt ms, openTimeout (NewCircuitBreaker mf to pt ms) = zeroTime) /\
  (forall f cb, openTimeout (SetOnOpen f cb) = openTimeout cb /\
                openTimeout (SetOnClose f cb) = openTimeout cb /\
                openTimeout (SetOnHalfOpen f cb) = openTimeout cb) /\
  (forall e cb,
     openTimeout (after (Execute e cb))
       = if tripped (Execute e cb) then Add (now_trip e) (timeout cb)
         else openTimeout cb) /\
  (forall e cb,
     state (after (Execute e cb)) = StateClosed ->
     openTimeout (after (Execute e cb)) = openTimeout cb) /\
  (forall mf to pt ms es,
     openTimeout (final (NewCircuitBreaker mf to pt ms) es)
       = last_trip (NewCircuitBreaker mf to pt ms) es zeroTime).
Proof.
  split; [exact reset_openTimeout |].
  split; [exact trip_openTimeout |].
  split; [reflexivity |].
  split; [intros f cb; repeat split |].
  split; [exact Execute_openTimeout |].
  split.
  - intros e cb Hcl. rewrite Execute_openTimeout.
    destruct (tripped (Execute e cb)) eqn:Htr; [| reflexivity].
    apply tripped_open in Htr. rewrite Hcl in Htr. discriminate.
  - intros mf to pt ms es. rewrite run_openTimeout. reflexivity.
Qed.

(** After fail, fail (trip at time 20) and a success at time 30 the breaker
    is Closed again and [openTimeout] is still the one of the trip. *)
Lemma openTimeout_written_by_trip_only_witness :
  openTimeout (after (Execute (succeeding 30)
                        (final cb_2_1 [failing 10; failing 20])))
    = openTimeout (final cb_2_1 [failing 10; failing 20]).
Proof.
  destruct openTimeout_written_by_trip_only as (_ & _ & _ & _ & _ & H & _).
  apply (H (succeeding 30) (final cb_2_1 [failing 10; failing 20])).
  reflexivity.
Defined.

(** ** The call that moves the breaker from Open to HalfOpen *)

(** After [openTimeout] has passed, the call handles the operation with the
    statements after the switch, those of the Closed state: a failure is
    counted in [consecutiveFailures] and trips only at [maxFailures]. *)
Lemma Execute_open_elapsed_failure_below (e : env) (cb : CircuitBreaker)
    (err : error) :
  state cb = StateOpen ->
  After (now_check e) (openTimeout cb) = true ->
  fn e = Some err ->
  GoInt.incr (consecutiveFailures cb) < maxFailures cb ->
  state (after (Execute e cb)) = StateHalfOpen /\
  consecutiveFailures (after (Execute e cb))
    = GoInt.incr (consecutiveFailures cb) /\
  trace (Execute e cb) = fired (onHalfOpen cb) ++ [EvCall (Some err)].
Proof.
  intros Hst Haft Hfn Hlt.
  rewrite (Execute_open_elapsed e cb Hst Haft).
  rewrite (Execute_operation_failure e _ err Hfn).
  destruct cb; simpl in *.
  assert (Hge : (GoInt.incr consecutiveFailures0 >=? maxFailures0) = false).
  { rewrite Z.geb_leb. apply Z.leb_gt. exact Hlt. }
  rewrite Hge. repeat split.
Qed.

(** After [openTimeout] has passed, a success resets the breaker at once,
    whatever [maxConsecutiveSuccesses] is, and the call does not sleep. *)
Lemma Execute_open_elapsed_success (e : env) (cb : CircuitBreaker) :
  state cb = StateOpen ->
  After (now_check e) (openTimeout cb) = true ->
  fn e = None ->
  state (after (Execute e cb)) = StateClosed /\
  consecutiveSuccesses (after (Execute e cb)) = 0 /\
  totalSuccesses (after (Execute e cb)) = GoInt.incr (totalSuccesses cb) /\
  trace (Execute e cb)
    = fired (onHalfOpen cb) ++ EvCall None :: fired (onClose cb).
Proof.
  intros Hst Haft Hfn.
  rewrite (Execute_open_elapsed e cb Hst Haft).
  rewrite (Execute_operation_success e _ Hfn).
  destruct cb; simpl in *. repeat split.
Qed.

(** C1, on the code. With [NewCircuitBreaker(2, 0, 0, 1)] and the calls
    fail, fail, fail at times 10, 20, 30: the second call trips the breaker
    ([openTimeout] = 20), the third call finds it Open with [openTimeout]
    passed, and after the third call the breaker is HalfOpen with
    [consecutiveFailures] = 1: it has not tripped again, and it has not
    slept.  With [maxConsecutiveSuccesses] = 2 and a success as third call
    the breaker is Closed at once with [consecutiveSuccesses] = 0. *)
Theorem scenario_fail_fail_fail :
  state (final cb_2_1 [failing 10; failing 20]) = StateOpen /\
  openTimeout (final cb_2_1 [failing 10; failing 20]) = 20 /\
  After (now_check (failing 30))
        (openTimeout (final cb_2_1 [failing 10; failing 20])) = true /\
  results cb_2_1 [failing 10; failing 20; failing 30]
    = [Some boom; Some boom; Some boom] /\
  state (final cb_2_1 [failing 10; failing 20; failing 30]) = StateHalfOpen /\
  consecutiveFailures (final cb_2_1 [failing 10; failing 20; failing 30]) = 1 /\
  openTimeout (final cb_2_1 [failing 10; failing 20; failing 30]) = 20 /\
  filter is_sleep (effects cb_2_1 [failing 10; failing 20; failing 30]) = [] /\
  state (final cb_2_2 [failing 10; failing 20; succeeding 30]) = StateClosed /\
  consecutiveSuccesses (final cb_2_2 [failing 10; failing 20; succeeding 30]) = 0.
Proof. repeat split. Qed.

(** ** The two consecutive counters *)

(** C2, on the code. With [NewCircuitBreaker(2, 0, 0, 2)] and the calls
    fail, fail, fail, success at times 10, 20, 30, 40 both
    [consecutiveFailures] and [consecutiveSuccesses] are 1 after the last
    call: the third call leaves the breaker HalfOpen with one failure
    counted, and the fourth counts a success without a reset. *)
Theorem scenario_both_consecutive_counters_positive :
  state (final cb_2_2 [failing 10; failing 20; failing 30; succeeding 40])
    = StateHalfOpen /\
  consecutiveFailures
    (final cb_2_2 [failing 10; failing 20; failing 30; succeeding 40]) = 1 /\
  consecutiveSuccesses
    (final cb_2_2 [failing 10; failing 20; failing 30; succeeding 40]) = 1.
Proof. repeat split. Qed.

(** ** The lifetime counters *)

(** A failed probe in the HalfOpen state goes to [trip] without counting
    in [totalFailures]. *)
Lemma Execute_half_open_failure_totalFailures (e : env) (cb : CircuitBreaker)
    (err : error) :
  state cb = StateHalfOpen ->
  fn e = Some err ->
  totalFailures (after (Execute e cb)) = totalFailures cb /\
  filter is_failed_call (trace (Execute e cb)) = [EvCall (Some err)].
Proof.
  intros Hst Hfn. destruct cb. simpl in Hst. subst.
  exec. rewrite Hfn. destruct onOpen0; split; reflexivity.
Qed.

(** The lifetime counters are not read: two breakers that differ in them
    only return the same value, have the same effects, and agree on every
    other field afterwards. *)
Lemma Execute_totals_not_read (e : env) (cb : CircuitBreaker) (a b : Z) :
  let cb2 := set_totalFailures a (set_totalSuccesses b cb) in
  returned (Execute e cb2) = returned (Execute e cb) /\
  trace (Execute e cb2) = trace (Execute e cb) /\
  state (after (Execute e cb2)) = state (after (Execute e cb)) /\
  consecutiveFailures (after (Execute e cb2))
    = consecutiveFailures (after (Execute e cb)) /\
  consecutiveSuccesses (after (Execute e cb2))
    = consecutiveSuccesses (after (Execute e cb)) /\
  openTimeout (after (Execute e cb2)) = openTimeout (after (Execute e cb)).
Proof.
  destruct cb as [st cF tF tS mF to oT pT cS mS hO hC hH].
  destruct st; exec.
  - destruct (fn e); [destruct (_ >=? _) |]; try destruct hO; try destruct hC;
      repeat split.
  - destruct (After (now_check e) oT); [| repeat split].
    destruct hH; destruct (fn e); try destruct (_ >=? _);
      try destruct hO; try destruct hC; repeat split.
  - destruct (fn e); [| destruct (_ >=? _)]; try destruct hO; try destruct hC;
      repeat split.
Qed.

(** C3, on the code. With [NewCircuitBreaker(2, 0, 0, 1)] and four failing
    calls at times 10, 20, 30, 40 the operation is invoked four times and
    fails four times, and [totalFailures] is 3: the fourth call finds the
    breaker HalfOpen, and its failed probe is not counted. *)
Theorem scenario_totalFailures_misses_probe :
  state (final cb_2_1 [failing 10; failing 20; failing 30]) = StateHalfOpen /\
  List.length (filter is_failed_call
    (effects cb_2_1 [failing 10; failing 20; failing 30; failing 40])) = 4%nat /\
  totalFailures (final cb_2_1 [failing 10; failing 20; failing 30; failing 40]) = 3.
Proof. repeat split. Qed.

(** * Further properties of the code *)

(** Case analysis over the paths of one call, once the breaker has been
    taken apart and [exec] has run. *)
Ltac paths e :=
  repeat match goal with
         | |- context [After ?a ?b] => destruct (After a b)
         | |- context [fn e] => destruct (fn e)
         | |- context [?a >=? ?b] => destruct (a >=? b)
         end.

(** ** What a call returns *)

Lemma Execute_rejected (e : env) (cb : CircuitBreaker) :
  fast_fail e cb = true ->
  Execute e cb = (Some breaker_open_error, cb, []).
Proof.
  unfold fast_fail. destruct cb as [st cF tF tS mF to oT pT cS mS hO hC hH].
  destruct st; simpl; intros H; try discriminate.
  exec. apply negb_true_iff in H. rewrite H. reflexivity.
Qed.

(** X1. [Execute] hands back what the operation returned, unchanged, on
    every path that invokes it; on the fast-fail path it returns the
    breaker's own error. *)
Theorem Execute_returns_operation_result (e : env) (cb : CircuitBreaker) :
  returned (Execute e cb)
    = if fast_fail e cb then Some breaker_open_error else fn e.
Proof.
  unfold fast_fail. destruct cb as [st cF tF tS mF to oT pT cS mS hO hC hH].
  destruct st, hO, hC, hH; exec; paths e; reflexivity.
Qed.

(** ** Fields a call never writes *)

Lemma Execute_frame (e : env) (cb : CircuitBreaker) :
  maxFailures (after (Execute e cb)) = maxFailures cb /\
  maxConsecutiveSuccesses (after (Execute e cb)) = maxConsecutiveSuccesses cb /\
  timeout (after (Execute e cb)) = timeout cb /\
  pauseTime (after (Execute e cb)) = pauseTime cb /\
  onOpen (after (Execute e cb)) = onOpen cb /\
  onClose (after (Execute e cb)) = onClose cb /\
  onHalfOpen (after (Execute e cb)) = onHalfOpen cb.
Proof.
  destruct cb as [st cF tF tS mF to oT pT cS mS hO hC hH].
  destruct st, hO, hC, hH; exec; paths e; repeat split.
Qed.

(** X2. No sequence of calls changes the configuration of the breaker
    ([maxFailures], [maxConsecutiveSuccesses], [timeout], [pauseTime]) or
    its hooks. *)
Theorem run_keeps_configuration (es : list env) : forall cb,
  maxFailures (final cb es) = maxFailures cb /\
  maxConsecutiveSuccesses (final cb es) = maxConsecutiveSuccesses cb /\
  timeout (final cb es) = timeout cb /\
  pauseTime (final cb es) = pauseTime cb /\
  onOpen (final cb es) = onOpen cb /\
  onClose (final cb es) = onClose cb /\
  onHalfOpen (final cb es) = onHalfOpen cb.
Proof.
  induction es as [| e es IH]; intros cb.
  - repeat split.
  - rewrite final_cons.
    destruct (IH (after (Execute e cb))) as (I1 & I2 & I3 & I4 & I5 & I6 & I7).
    destruct (Execute_frame e cb) as (F1 & F2 & F3 & F4 & F5 & F6 & F7).
    rewrite I1, I2, I3, I4, I5, I6, I7. repeat split; assumption.
Qed.

(** ** Hooks only observe *)

Lemma Execute_set_hooks (e : env) (cb : CircuitBreaker)
    (o c h : option callback) :
  returned (Execute e (set_hooks o c h cb)) = returned (Execute e cb) /\
  after (Execute e (set_hooks o c h cb)) = set_hooks o c h (after (Execute e cb)) /\
  filter (fun ev => negb (is_hook ev)) (trace (Execute e (set_hooks o c h cb)))
    = filter (fun ev => negb (is_hook ev)) (trace (Execute e cb)).
Proof.
  destruct cb as [st cF tF tS mF to oT pT cS mS hO hC hH].
  destruct st, hO, hC, hH, o, c, h; unfold set_hooks; exec; paths e;
    repeat split.
Qed.

(** X3. The hooks have no influence on the breaker: with other hooks (or
    none) installed, any sequence of calls returns the same values, leaves
    the same breaker up to the hook fields, and has the same effects apart
    from hook invocations. *)
Theorem run_hooks_only_observe (es : list env) : forall cb o c h,
  results (set_hooks o c h cb) es = results cb es /\
  final (set_hooks o c h cb) es = set_hooks o c h (final cb es) /\
  filter (fun ev => negb (is_hook ev)) (effects (set_hooks o c h cb) es)
    = filter (fun ev => negb (is_hook ev)) (effects cb es).
Proof.
  induction es as [| e es IH]; intros cb o c h.
  - repeat split.
  - destruct (Execute_set_hooks e cb o c h) as (E1 & E2 & E3).
    rewrite !final_cons, !effects_cons, !filter_app. simpl.
    rewrite E1, E2, E3.
    destruct (IH (after (Execute e cb)) o c h) as (I1 & I2 & I3).
    rewrite I1, I2, I3. repeat split.
Qed.

(** ** When the hooks are invoked *)

(** X4. The hook invocations of one call, in order: [onHalfOpen] when the
    call finds the breaker Open with [openTimeout] passed; then [onOpen]
    when the call trips the breaker, or [onClose] when a successful
    invocation leaves it Closed.  Each is invoked only if set, and no call
    invokes both [onOpen] and [onClose]. *)
Theorem Execute_hook_invocations (e : env) (cb : CircuitBreaker) :
  filter is_hook (trace (Execute e cb))
    = (if admits_probe e cb then fired (onHalfOpen cb) else []) ++
      (if tripped (Execute e cb) then fired (onOpen cb)
       else if closed_by (Execute e cb) then fired (onClose cb)
       else []).
Proof.
  unfold admits_probe.
  destruct cb as [st cF tF tS mF to oT pT cS mS hO hC hH].
  destruct st, hO, hC, hH; exec; paths e; reflexivity.
Qed.

(** ** When a call sleeps *)

(** X5. A call entered in the HalfOpen state sleeps exactly once, for
    [pauseTime], as its last effect, whatever the probe returned; a call
    entered in the Closed state and a rejected call do not sleep. *)
Theorem Execute_sleep (e : env) (cb : CircuitBreaker) :
  (state cb = StateHalfOpen ->
   exists t, trace (Execute e cb) = t ++ [EvSleep (pauseTime cb)] /\
             filter is_sleep t = []) /\
  (state cb = StateClosed -> filter is_sleep (trace (Execute e cb)) = []) /\
  (fast_fail e cb = true -> filter is_sleep (trace (Execute e cb)) = []).
Proof.
  split; [| split].
  - destruct cb as [st cF tF tS mF to oT pT cS mS hO hC hH].
    simpl. intros ->. exec.
    destruct (fn e) as [err|].
    + exists (EvCall (Some err) :: fired hO). destruct hO; split; reflexivity.
    + destruct (_ >=? _).
      * exists (EvCall None :: fired hC). destruct hC; split; reflexivity.
      * exists [EvCall None]. split; reflexivity.
  - destruct cb as [st cF tF tS mF to oT pT cS mS hO hC hH].
    simpl. intros ->. destruct hO, hC; exec; paths e; reflexivity.
  - intros H. rewrite (Execute_rejected e cb H). reflexivity.
Qed.

Lemma Execute_sleep_witness :
  exists t, trace (Execute (failing 200) cb_half) = t ++ [EvSleep 5] /\
            filter is_sleep t = [].
Proof.
  apply (proj1 (Execute_sleep (failing 200) cb_half)). reflexivity.
Defined.

(** ** Successful probes in the HalfOpen state *)

Lemma Execute_half_open_success (e : env) (cb : CircuitBreaker) :
  state cb = StateHalfOpen ->
  fn e = None ->
  Execute e cb =
    let cb1 := set_totalSuccesses (GoInt.incr (totalSuccesses cb))
                 (set_consecutiveSuccesses
                    (GoInt.incr (consecutiveSuccesses cb)) cb) in
    if consecutiveSuccesses cb1 >=? maxConsecutiveSuccesses cb1
    then (None,
          set_consecutiveSuccesses 0
            (set_consecutiveFailures 0 (set_state StateClosed cb1)),
          EvCall None :: fired (onClose cb) ++ [EvSleep (pauseTime cb)])
    else (None, cb1, [EvCall None; EvSleep (pauseTime cb)]).
Proof.
  intros Hst Hfn. destruct cb. simpl in Hst. subst.
  exec. rewrite Hfn. destruct (_ >=? _); destruct onClose0; reflexivity.
Qed.

(** X6. A call entered in the HalfOpen state whose probe succeeds and
    brings [consecutiveSuccesses] to [maxConsecutiveSuccesses] closes the
    breaker: the state is Closed, both consecutive counters are 0,
    [totalSuccesses] is incremented, [totalFailures] and [openTimeout] are
    as before, and the effects are the probe, [onClose] when set, and the
    pause. *)
Theorem Execute_half_open_success_reaching (e : env) (cb : CircuitBreaker) :
  state cb = StateHalfOpen ->
  fn e = None ->
  maxConsecutiveSuccesses cb <= GoInt.incr (consecutiveSuccesses cb) ->
  returned (Execute e cb) = None /\
  state (after (Execute e cb)) = StateClosed /\
  consecutiveFailures (after (Execute e cb)) = 0 /\
  consecutiveSuccesses (after (Execute e cb)) = 0 /\
  totalSuccesses (after (Execute e cb)) = GoInt.incr (totalSuccesses cb) /\
  totalFailures (after (Execute e cb)) = totalFailures cb /\
  openTimeout (after (Execute e cb)) = openTimeout cb /\
  trace (Execute e cb)
    = EvCall None :: fired (onClose cb) ++ [EvSleep (pauseTime cb)].
Proof.
  intros Hst Hfn Hle.
  rewrite (Execute_half_open_success e cb Hst Hfn).
  destruct cb; simpl in *.
  assert (Hge : (GoInt.incr consecutiveSuccesses0 >=? maxConsecutiveSuccesses0)
                = true).
  { rewrite Z.geb_leb. apply Z.leb_le. exact Hle. }
  rewrite Hge. repeat split.
Qed.

Lemma Execute_half_open_success_reaching_witness :
  returned (Execute (succeeding 200) (set_consecutiveSuccesses 1 cb_probing))
    = None /\
  state (after (Execute (succeeding 200) (set_consecutiveSuccesses 1 cb_probing)))
    = StateClosed /\
  consecutiveFailures
    (after (Execute (succeeding 200) (set_consecutiveSuccesses 1 cb_probing))) = 0 /\
  consecutiveSuccesses
    (after (Execute (succeeding 200) (set_consecutiveSuccesses 1 cb_probing))) = 0 /\
  totalSuccesses
    (after (Execute (succeeding 200) (set_consecutiveSuccesses 1 cb_probing)))
    = GoInt.incr 0 /\
  totalFailures
    (after (Execute (succeeding 200) (set_consecutiveSuccesses 1 cb_probing))) = 0 /\
  openTimeout
    (after (Execute (succeeding 200) (set_consecutiveSuccesses 1 cb_probing))) = 100 /\
  trace (Execute (succeeding 200) (set_consecutiveSuccesses 1 cb_probing))
    = EvCall None :: fired (Some 4%nat) ++ [EvSleep 5].
Proof.
  apply (Execute_half_open_success_reaching (succeeding 200)
           (set_consecutiveSuccesses 1 cb_probing)).
  - reflexivity.
  - reflexivity.
  - vm_compute. discriminate.
Defined.

Lemma Execute_half_open_success_counting (e : env) (cb : CircuitBreaker) :
  state cb = StateHalfOpen ->
  succeeds e ->
  0 <= consecutiveSuccesses cb ->
  consecutiveSuccesses cb + 1 < maxConsecutiveSuccesses cb ->
  maxConsecutiveSuccesses cb <= GoInt.max_int ->
  after (Execute e cb)
    = set_totalSuccesses (GoInt.incr (totalSuccesses cb))
        (set_consecutiveSuccesses (consecutiveSuccesses cb + 1) cb) /\
  trace (Execute e cb) = [EvCall None; EvSleep (pauseTime cb)].
Proof.
  intros Hst Hfn H0 Hlt Hmax.
  rewrite (Execute_half_open_success e cb Hst Hfn).
  assert (Hinc : GoInt.incr (consecutiveSuccesses cb) = consecutiveSuccesses cb + 1).
  { apply incr_small. unfold GoInt.min_int, GoInt.max_int in *. lia. }
  cbv zeta. destruct cb; simpl in *. rewrite Hinc.
  assert (Hge : (consecutiveSuccesses0 + 1 >=? maxConsecutiveSuccesses0) = false).
  { rewrite Z.geb_leb. apply Z.leb_gt. lia. }
  rewrite Hge. split; reflexivity.
Qed.

Lemma Execute_half_open_success_closing (e : env) (cb : CircuitBreaker) :
  state cb = StateHalfOpen ->
  succeeds e ->
  maxConsecutiveSuccesses cb <= GoInt.incr (consecutiveSuccesses cb) ->
  after (Execute e cb)
    = set_consecutiveSuccesses 0
        (set_consecutiveFailures 0
          (set_state StateClosed
            (set_totalSuccesses (GoInt.incr (totalSuccesses cb))
              (set_consecutiveSuccesses
                 (GoInt.incr (consecutiveSuccesses cb)) cb)))) /\
  trace (Execute e cb)
    = EvCall None :: fired (onClose cb) ++ [EvSleep (pauseTime cb)].
Proof.
  intros Hst Hfn Hle.
  rewrite (Execute_half_open_success e cb Hst Hfn).
  destruct cb; simpl in *.
  assert (Hge : (GoInt.incr consecutiveSuccesses0 >=? maxConsecutiveSuccesses0)
                = true).
  { rewrite Z.geb_leb. apply Z.leb_le. exact Hle. }
  rewrite Hge. split; reflexivity.
Qed.

Lemma run_half_open_successes_below (es : list env) : forall cb,
  state cb = StateHalfOpen ->
  Forall succeeds es ->
  0 <= consecutiveSuccesses cb ->
  consecutiveSuccesses cb + Z.of_nat (List.length es)
    < maxConsecutiveSuccesses cb ->
  maxConsecutiveSuccesses cb <= GoInt.max_int ->
  state (final cb es) = StateHalfOpen /\
  consecutiveSuccesses (final cb es)
    = consecutiveSuccesses cb + Z.of_nat (List.length es) /\
  maxConsecutiveSuccesses (final cb es) = maxConsecutiveSuccesses cb /\
  pauseTime (final cb es) = pauseTime cb /\
  openTimeout (final cb es) = openTimeout cb /\
  onClose (final cb es) = onClose cb /\
  filter is_hook (effects cb es) = [] /\
  filter is_sleep (effects cb es)
    = repeat (EvSleep (pauseTime cb)) (List.length es).
Proof.
  induction es as [| e es IH]; intros cb Hst Hall H0 Hlt Hmax.
  - unfold final, effects; simpl. rewrite Z.add_0_r. repeat split; assumption.
  - inversion Hall as [| ? ? He Hes]; subst.
    change (List.length (e :: es)) with (S (List.length es)) in *.
    rewrite Nat2Z.inj_succ in *.
    destruct (Execute_half_open_success_counting e cb Hst He H0 ltac:(lia) Hmax)
      as [Hafter Htrace].
    rewrite final_cons, effects_cons, Hafter, Htrace.
    specialize (IH (set_totalSuccesses (GoInt.incr (totalSuccesses cb))
                      (set_consecutiveSuccesses (consecutiveSuccesses cb + 1) cb))).
    destruct cb; simpl in *.
    destruct IH as (I1 & I2 & I3 & I4 & I5 & I6 & I7 & I8);
      [assumption | assumption | lia | lia | assumption |].
    rewrite I1, I2, I3, I4, I5, I6, I7, I8. repeat split; lia.
Qed.

(** X7. Take a HalfOpen breaker with no success counted and a threshold
    [maxConsecutiveSuccesses >= 1], and [maxConsecutiveSuccesses] calls
    whose probes all succeed.  After every proper prefix the breaker is
    still HalfOpen and no hook has been invoked; after the last call it is
    Closed with both consecutive counters 0, [onClose] (when set) is the
    only hook invocation of the run, every call has slept [pauseTime], and
    [openTimeout] is as before. *)
Theorem run_maxConsecutiveSuccesses_probes (cb : CircuitBreaker) (es : list env) :
  state cb = StateHalfOpen ->
  consecutiveSuccesses cb = 0 ->
  1 <= maxConsecutiveSuccesses cb <= GoInt.max_int ->
  Z.of_nat (List.length es) = maxConsecutiveSuccesses cb ->
  Forall succeeds es ->
  (forall k, (k < List.length es)%nat ->
     state (final cb (firstn k es)) = StateHalfOpen /\
     filter is_hook (effects cb (firstn k es)) = []) /\
  state (final cb es) = StateClosed /\
  consecutiveFailures (final cb es) = 0 /\
  consecutiveSuccesses (final cb es) = 0 /\
  filter is_hook (effects cb es) = fired (onClose cb) /\
  filter is_sleep (effects cb es)
    = repeat (EvSleep (pauseTime cb)) (List.length es) /\
  openTimeout (final cb es) = openTimeout cb.
Proof.
  intros Hst Hcs Hms Hlen Hall.
  split.
  - intros k Hk.
    assert (Hlenk : List.length (firstn k es) = k)
      by (apply firstn_length_le; lia).
    destruct (run_half_open_successes_below (firstn k es) cb)
      as (P1 & _ & _ & _ & _ & _ & P7 & _).
    + exact Hst.
    + rewrite <- (firstn_skipn k es) in Hall.
      apply Forall_app in Hall. exact (proj1 Hall).
    + lia.
    + rewrite Hlenk. lia.
    + lia.
    + split; assumption.
  - assert (Hne : es <> []).
    { intros ->. simpl in Hlen. lia. }
    destruct (exists_last Hne) as (es' & e & ->).
    rewrite length_app in *. simpl in Hlen.
    apply Forall_app in Hall. destruct Hall as [Hall' He].
    inversion He as [| ? ? Hfe _]; subst.
    destruct (run_half_open_successes_below es' cb Hst Hall')
      as (P1 & P2 & P3 & P4 & P5 & P6 & P7 & P8); [lia | lia | lia |].
    assert (Hinc : GoInt.incr (consecutiveSuccesses (final cb es'))
                   = consecutiveSuccesses (final cb es') + 1).
    { apply incr_small. unfold GoInt.min_int, GoInt.max_int in *. lia. }
    destruct (Execute_half_open_success_closing e (final cb es') P1 Hfe)
      as (Q1 & Q2); [lia |].
    rewrite final_app, effects_app, final_one, effects_one.
    rewrite Q1, Q2, !filter_app, P7, P8, P4, P6.
    replace (openTimeout _) with (openTimeout cb)
      by (rewrite <- P5; destruct (final cb es'); reflexivity).
    simpl. rewrite !filter_app, filter_is_hook_fired.
    replace (filter is_sleep (fired (onClose cb))) with (@nil event)
      by (destruct (onClose cb); reflexivity).
    simpl. rewrite Nat.add_comm. simpl.
    rewrite (repeat_cons (List.length es') (EvSleep (pauseTime cb))).
    rewrite app_nil_r. repeat split.
Qed.

Lemma run_maxConsecutiveSuccesses_probes_witness :
  (forall k, (k < 2)%nat ->
     state (final cb_probing (firstn k [succeeding 200; succeeding 300]))
       = StateHalfOpen /\
     filter is_hook
       (effects cb_probing (firstn k [succeeding 200; succeeding 300])) = []) /\
  state (final cb_probing [succeeding 200; succeeding 300]) = StateClosed /\
  consecutiveFailures (final cb_probing [succeeding 200; succeeding 300]) = 0 /\
  consecutiveSuccesses (final cb_probing [succeeding 200; succeeding 300]) = 0 /\
  filter is_hook (effects cb_probing [succeeding 200; succeeding 300])
    = [EvHook 4%nat] /\
  filter is_sleep (effects cb_probing [succeeding 200; succeeding 300])
    = [EvSleep 5; EvSleep 5] /\
  openTimeout (final cb_probing [succeeding 200; succeeding 300]) = 100.
Proof.
  apply (run_maxConsecutiveSuccesses_probes cb_probing
           [succeeding 200; succeeding 300]).
  - reflexivity.
  - reflexivity.
  - vm_compute. split; discriminate.
  - reflexivity.
  - repeat constructor.
Defined.

(** ** Thresholds that are not positive *)

(** X8. [NewCircuitBreaker] does not validate its arguments.  With
    [maxFailures <= 1] (zero and negative values included) the first
    failing call on the new breaker trips it: the breaker is Open,
    [openTimeout] is the time read plus [timeout], one failure is counted
    in [totalFailures], and the call returns the operation's error. *)
Theorem NewCircuitBreaker_low_maxFailures (mf ms : Z) (to pt : Duration)
    (e : env) :
  mf <= 1 ->
  fails e ->
  returned (Execute e (NewCircuitBreaker mf to pt ms)) = fn e /\
  state (after (Execute e (NewCircuitBreaker mf to pt ms))) = StateOpen /\
  consecutiveFailures (after (Execute e (NewCircuitBreaker mf to pt ms))) = 0 /\
  totalFailures (after (Execute e (NewCircuitBreaker mf to pt ms))) = 1 /\
  openTimeout (after (Execute e (NewCircuitBreaker mf to pt ms)))
    = Add (now_trip e) to /\
  trace (Execute e (NewCircuitBreaker mf to pt ms)) = [EvCall (fn e)].
Proof.
  intros Hmf Hf.
  destruct (fn e) as [err|] eqn:Hfn; [| exfalso; apply Hf; exact Hfn].
  rewrite Execute_closed by reflexivity.
  rewrite (Execute_operation_failure e _ err Hfn).
  cbv zeta. simpl.
  assert (Hge : (GoInt.incr 0 >=? mf) = true).
  { rewrite Z.geb_leb. apply Z.leb_le. change (GoInt.incr 0) with 1. exact Hmf. }
  rewrite Hge. repeat split.
Qed.

Lemma NewCircuitBreaker_low_maxFailures_witness :
  returned (Execute (failing 10) (NewCircuitBreaker (-3) 50 5 2)) = Some boom /\
  state (after (Execute (failing 10) (NewCircuitBreaker (-3) 50 5 2)))
    = StateOpen /\
  consecutiveFailures
    (after (Execute (failing 10) (NewCircuitBreaker (-3) 50 5 2))) = 0 /\
  totalFailures (after (Execute (failing 10) (NewCircuitBreaker (-3) 50 5 2))) = 1 /\
  openTimeout (after (Execute (failing 10) (NewCircuitBreaker (-3) 50 5 2)))
    = Add 10 50 /\
  trace (Execute (failing 10) (NewCircuitBreaker (-3) 50 5 2))
    = [EvCall (Some boom)].
Proof.
  apply (NewCircuitBreaker_low_maxFailures (-3) 2 50 5 (failing 10)).
  - vm_compute. discriminate.
  - discriminate.
Defined.

(** ** The consecutive counters between calls *)

Lemma Execute_counters_ok (e : env) (cb : CircuitBreaker) :
  maxFailures cb <= GoInt.max_int ->
  maxConsecutiveSuccesses cb <= GoInt.max_int ->
  counters_ok cb ->
  counters_ok (after (Execute e cb)).
Proof.
  unfold counters_ok.
  destruct cb as [st cF tF tS mF to oT pT cS mS hO hC hH]; simpl.
  intros HmF HmS (H1 & H2 & H3 & H4 & H5 & H6).
  assert (HiF : GoInt.incr cF = cF + 1).
  { apply incr_small. unfold GoInt.min_int, GoInt.max_int in *. lia. }
  assert (HiS : GoInt.incr cS = cS + 1).
  { apply incr_small. unfold GoInt.min_int, GoInt.max_int in *. lia. }
  destruct st; exec.
  - (* Closed *)
    destruct (fn e).
    + rewrite HiF. destruct (cF + 1 >=? mF) eqn:E; rewrite Z.geb_leb in E;
        [apply Z.leb_le in E | apply Z.leb_gt in E];
        destruct hO; cbn;
        (repeat split; try lia; try discriminate; try (right; lia);
         try (left; reflexivity); try (intros _; apply H6; reflexivity)).
    + destruct hC; cbn;
        (repeat split; try lia; try discriminate; try (left; reflexivity)).
  - (* Open *)
    destruct (H5 eq_refl) as [-> ->].
    destruct (After (now_check e) oT).
    + destruct hH; destruct (fn e); cbn;
        try (change (GoInt.incr 0) with 1);
        try (destruct (1 >=? mF) eqn:E; rewrite Z.geb_leb in E;
             [apply Z.leb_le in E | apply Z.leb_gt in E]);
        try destruct hO; try destruct hC; cbn;
        (repeat split; try lia; try discriminate; try (right; lia);
         try (left; reflexivity)).
    + cbn. repeat split; try lia; try discriminate; try (left; reflexivity).
  - (* HalfOpen *)
    destruct (fn e).
    + destruct hO; cbn;
        (repeat split; try lia; try discriminate; try (left; reflexivity)).
    + rewrite HiS. destruct (cS + 1 >=? mS) eqn:E; rewrite Z.geb_leb in E;
        [apply Z.leb_le in E | apply Z.leb_gt in E];
        try destruct hC; cbn;
        (repeat split; try lia; try discriminate; try (right; lia);
         try assumption; try (left; reflexivity)).
Qed.

(** X9. On a new breaker whose thresholds are Go [int]s, after any
    sequence of calls: both consecutive counters are non-negative and, when
    not 0, below their thresholds (so they never overflow); while the
    breaker is Open both are 0; while it is Closed
    [consecutiveSuccesses] is 0. *)
Theorem run_counters_ok (mf ms : Z) (to pt : Duration) (es : list env) :
  mf <= GoInt.max_int ->
  ms <= GoInt.max_int ->
  counters_ok (final (NewCircuitBreaker mf to pt ms) es).
Proof.
  intros Hmf Hms.
  assert (Hgen : forall cb,
             maxFailures cb <= GoInt.max_int ->
             maxConsecutiveSuccesses cb <= GoInt.max_int ->
             counters_ok cb -> counters_ok (final cb es)).
  { induction es as [| e es IH]; intros cb HF HS Hok.
    - exact Hok.
    - rewrite final_cons.
      destruct (Execute_frame e cb) as (F1 & F2 & _).
      apply IH.
      + rewrite F1. exact HF.
      + rewrite F2. exact HS.
      + apply Execute_counters_ok; assumption. }
  apply Hgen; try assumption.
  unfold counters_ok; simpl. repeat split; try lia; try discriminate;
    left; reflexivity.
Qed.

Lemma run_counters_ok_witness :
  counters_ok (final (NewCircuitBreaker 2 0 0 2)
                 [failing 10; failing 20; failing 30; succeeding 40]).
Proof.
  apply (run_counters_ok 2 2 0 0
           [failing 10; failing 20; failing 30; succeeding 40]).
  - vm_compute. discriminate.
  - vm_compute. discriminate.
Defined.

(** ** The lifetime counters over a run *)

Lemma Execute_totalSuccesses (e : env) (cb : CircuitBreaker) :
  (List.length (filter is_succeeded_call (trace (Execute e cb))) = 0%nat /\
   totalSuccesses (after (Execute e cb)) = totalSuccesses cb) \/
  (List.length (filter is_succeeded_call (trace (Execute e cb))) = 1%nat /\
   totalSuccesses (after (Execute e cb)) = GoInt.incr (totalSuccesses cb)).
Proof.
  destruct cb as [st cF tF tS mF to oT pT cS mS hO hC hH].
  destruct st, hO, hC, hH; exec; paths e;
    first [left; split; reflexivity | right; split; reflexivity].
Qed.

Lemma Execute_totalFailures (e : env) (cb : CircuitBreaker) :
  ((List.length (filter is_failed_call (trace (Execute e cb))) <= 1)%nat /\
   totalFailures (after (Execute e cb)) = totalFailures cb) \/
  (List.length (filter is_failed_call (trace (Execute e cb))) = 1%nat /\
   totalFailures (after (Execute e cb)) = GoInt.incr (totalFailures cb)).
Proof.
  destruct cb as [st cF tF tS mF to oT pT cS mS hO hC hH].
  destruct st, hO, hC, hH; exec; paths e;
    first [right; split; reflexivity
          | left; split; [cbn; lia | reflexivity] ].
Qed.

(** X10. As long as it does not overflow, [totalSuccesses] counts the
    invocations of the operation that returned nil: after any sequence of
    calls it has grown by exactly their number. *)
Theorem run_totalSuccesses (es : list env) : forall cb,
  GoInt.min_int <= totalSuccesses cb ->
  totalSuccesses cb + Z.of_nat (List.length es) <= GoInt.max_int ->
  totalSuccesses (final cb es)
    = totalSuccesses cb
      + Z.of_nat (List.length (filter is_succeeded_call (effects cb es))).
Proof.
  induction es as [| e es IH]; intros cb Hmin Hmax.
  - unfold final, effects; simpl. lia.
  - change (List.length (e :: es)) with (S (List.length es)) in Hmax.
    rewrite Nat2Z.inj_succ in Hmax.
    rewrite final_cons, effects_cons, filter_app, length_app, Nat2Z.inj_add.
    assert (Hinc : GoInt.incr (totalSuccesses cb) = totalSuccesses cb + 1).
    { apply incr_small. lia. }
    destruct (Execute_totalSuccesses e cb) as [[Hn Ht] | [Hn Ht]];
      rewrite Hn; rewrite IH; rewrite Ht; try rewrite Hinc;
      simpl Z.of_nat; lia.
Qed.

Lemma run_totalSuccesses_witness :
  totalSuccesses (final cb_2_1 [succeeding 10; failing 20; succeeding 30])
    = totalSuccesses cb_2_1
      + Z.of_nat (List.length (filter is_succeeded_call
          (effects cb_2_1 [succeeding 10; failing 20; succeeding 30]))).
Proof.
  apply (run_totalSuccesses [succeeding 10; failing 20; succeeding 30] cb_2_1).
  - vm_compute. discriminate.
  - vm_compute. discriminate.
Defined.

(** X11. As long as it does not overflow, [totalFailures] never decreases
    over a sequence of calls and never exceeds its initial value plus the
    number of invocations of the operation that returned an error. *)
Theorem run_totalFailures_bounds (es : list env) : forall cb,
  GoInt.min_int <= totalFailures cb ->
  totalFailures cb + Z.of_nat (List.length es) <= GoInt.max_int ->
  totalFailures cb <= totalFailures (final cb es) /\
  totalFailures (final cb es)
    <= totalFailures cb
       + Z.of_nat (List.length (filter is_failed_call (effects cb es))).
Proof.
  induction es as [| e es IH]; intros cb Hmin Hmax.
  - unfold final, effects; simpl. lia.
  - change (List.length (e :: es)) with (S (List.length es)) in Hmax.
    rewrite Nat2Z.inj_succ in Hmax.
    rewrite final_cons, effects_cons, filter_app, length_app, Nat2Z.inj_add.
    assert (Hinc : GoInt.incr (totalFailures cb) = totalFailures cb + 1).
    { apply incr_small. lia. }
    destruct (Execute_totalFailures e cb) as [[Hn Ht] | [Hn Ht]].
    + destruct (IH (after (Execute e cb))) as [I1 I2];
        [rewrite Ht; lia | rewrite Ht; lia |].
      rewrite Ht in I1, I2. lia.
    + destruct (IH (after (Execute e cb))) as [I1 I2];
        [rewrite Ht, Hinc; lia | rewrite Ht, Hinc; lia |].
      rewrite Ht, Hinc in I1, I2. rewrite Hn. simpl Z.of_nat. lia.
Qed.

Lemma run_totalFailures_bounds_witness :
  totalFailures cb_2_1
    <= totalFailures (final cb_2_1 [succeeding 10; failing 20; succeeding 30]) /\
  totalFailures (final cb_2_1 [succeeding 10; failing 20; succeeding 30])
    <= totalFailures cb_2_1
       + Z.of_nat (List.length (filter is_failed_call
           (effects cb_2_1 [succeeding 10; failing 20; succeeding 30]))).
Proof.
  apply (run_totalFailures_bounds [succeeding 10; failing 20; succeeding 30] cb_2_1).
  - vm_compute. discriminate.
  - vm_compute. discriminate.
Defined.

(** ** Calls while the breaker is Open *)

(** X12. While the breaker is Open, any number of calls made at times not
    after [openTimeout] are all rejected with the breaker's error; together
    they have no effect and leave the breaker exactly as it was. *)
Theorem run_rejected (es : list env) (cb : CircuitBreaker) :
  state cb = StateOpen ->
  Forall (fun e => now_check e <= openTimeout cb) es ->
  final cb es = cb /\
  effects cb es = [] /\
  results cb es = repeat (Some breaker_open_error) (List.length es).
Proof.
  intros Hst Hall.
  induction Hall as [| e es He Hes IH].
  - repeat split.
  - assert (Hff : fast_fail e cb = true).
    { unfold fast_fail, After. rewrite Hst. apply negb_true_iff.
      apply Z.ltb_ge. exact He. }
    destruct IH as (I1 & I2 & I3).
    rewrite final_cons, effects_cons. simpl.
    rewrite (Execute_rejected e cb Hff). simpl.
    change (after (Some breaker_open_error, cb, @nil event)) with cb.
    rewrite I1, I2, I3. repeat split.
Qed.

Lemma run_rejected_witness :
  final cb_open [failing 10; succeeding 50; failing 100] = cb_open /\
  effects cb_open [failing 10; succeeding 50; failing 100] = [] /\
  results cb_open [failing 10; succeeding 50; failing 100]
    = repeat (Some breaker_open_error) 3.
Proof.
  apply (run_rejected [failing 10; succeeding 50; failing 100] cb_open).
  - reflexivity.
  - repeat constructor; vm_compute; discriminate.
Defined.

(** ** Runs in which the breaker stays Closed *)

Lemma invocations_app (t1 t2 : list event) :
  invocations (t1 ++ t2) = (invocations t1 + invocations t2)%nat.
Proof. unfold invocations. rewrite filter_app, length_app. reflexivity. Qed.

Lemma invocations_call_fired (r : option error) (h : option callback) :
  invocations (EvCall r :: fired h) = 1%nat.
Proof. destruct h; reflexivity. Qed.

(** X13. Take a Closed breaker and a sequence of calls in which no streak
    of failures (counted with the failures already in
    [consecutiveFailures]) reaches [maxFailures].  Then every call invokes
    the operation and returns its result, the breaker is Closed at the end
    with [consecutiveFailures] equal to the length of the last streak,
    [openTimeout] is untouched, and the only hook invocations are those of
    [onClose], once per success. *)
Theorem run_below_stays_closed (es : list env) : forall cb,
  state cb = StateClosed ->
  0 <= consecutiveFailures cb ->
  maxFailures cb <= GoInt.max_int ->
  below (maxFailures cb) (consecutiveFailures cb) es = true ->
  state (final cb es) = StateClosed /\
  consecutiveFailures (final cb es) = streak (consecutiveFailures cb) es /\
  results cb es = map fn es /\
  invocations (effects cb es) = List.length es /\
  filter is_hook (effects cb es) = hooks_of_successes (onClose cb) es /\
  openTimeout (final cb es) = openTimeout cb.
Proof.
  induction es as [| e es IH]; intros cb Hst H0 Hmax Hbelow.
  - repeat split. exact Hst.
  - simpl in Hbelow. simpl streak. simpl map.
    unfold hooks_of_successes. simpl flat_map.
    fold (hooks_of_successes (onClose cb) es).
    rewrite final_cons, effects_cons, invocations_app, filter_app.
    simpl results.
    destruct (fn e) as [err|] eqn:Hfn.
    + apply andb_prop in Hbelow. destruct Hbelow as [Hlt Hbelow].
      apply Z.ltb_lt in Hlt.
      assert (Hf : fails e) by (unfold fails; rewrite Hfn; discriminate).
      destruct (Execute_closed_failure_below e cb Hst Hf H0 Hlt Hmax)
        as [Hafter Htrace].
      assert (Hret : returned (Execute e cb) = Some err).
      { rewrite (Execute_closed e cb Hst),
          (Execute_operation_failure e cb err Hfn).
        cbv zeta. destruct (_ >=? _); reflexivity. }
      rewrite Hret, Hafter, Htrace, Hfn.
      specialize (IH (set_totalFailures (GoInt.incr (totalFailures cb))
                        (set_consecutiveFailures (consecutiveFailures cb + 1) cb))).
      destruct cb; simpl in *.
      destruct IH as (I1 & I2 & I3 & I4 & I5 & I6);
        [assumption | lia | assumption | assumption |].
      rewrite I1, I2, I3, I4, I5, I6. repeat split.
    + rewrite (Execute_closed e cb Hst), (Execute_operation_success e cb Hfn).
      unfold returned, after, trace; simpl fst; simpl snd.
      rewrite invocations_call_fired.
      specialize (IH (set_totalSuccesses (GoInt.incr (totalSuccesses cb))
                        (set_consecutiveSuccesses 0
                           (set_consecutiveFailures 0
                              (set_state StateClosed cb))))).
      destruct cb; simpl in *.
      destruct IH as (I1 & I2 & I3 & I4 & I5 & I6);
        [reflexivity | lia | assumption | assumption |].
      rewrite I1, I2, I3, I4, I5, I6, filter_is_hook_fired. repeat split.
Qed.

Lemma run_below_stays_closed_witness :
  state (final cb_3 [failing 10; failing 20; succeeding 30; failing 40])
    = StateClosed /\
  consecutiveFailures
    (final cb_3 [failing 10; failing 20; succeeding 30; failing 40])
    = streak (consecutiveFailures cb_3)
        [failing 10; failing 20; succeeding 30; failing 40] /\
  results cb_3 [failing 10; failing 20; succeeding 30; failing 40]
    = map fn [failing 10; failing 20; succeeding 30; failing 40] /\
  invocations (effects cb_3 [failing 10; failing 20; succeeding 30; failing 40])
    = 4%nat /\
  filter is_hook
    (effects cb_3 [failing 10; failing 20; succeeding 30; failing 40])
    = hooks_of_successes (onClose cb_3)
        [failing 10; failing 20; succeeding 30; failing 40] /\
  openTimeout (final cb_3 [failing 10; failing 20; succeeding 30; failing 40])
    = openTimeout cb_3.
Proof.
  apply (run_below_stays_closed
           [failing 10; failing 20; succeeding 30; failing 40] cb_3).
  - reflexivity.
  - vm_compute. discriminate.
  - vm_compute. discriminate.
  - reflexivity.
Defined.

(** ** The gate after a trip *)

Lemma Execute_admitted (e : env) (cb : CircuitBreaker) :
  state cb = StateOpen ->
  After (now_check e) (openTimeout cb) = true ->
  returned (Execute e cb) = fn e /\
  invocations (trace (Execute e cb)) = 1%nat.
Proof.
  destruct cb as [st cF tF tS mF to oT pT cS mS hO hC hH]; simpl.
  intros -> Haft. exec. rewrite Haft.
  destruct hO, hC, hH; paths e; split; reflexivity.
Qed.

(** X14. Once a call has tripped the breaker at time [t] (the time read in
    [trip]), every call made at a time up to [t + timeout] is rejected
    without any effect, and a call made after [t + timeout] invokes the
    operation once and returns its result. *)
Theorem Execute_after_trip (e e' : env) (cb : CircuitBreaker) :
  tripped (Execute e cb) = true ->
  (now_check e' <= Add (now_trip e) (timeout cb) ->
   Execute e' (after (Execute e cb))
     = (Some breaker_open_error, after (Execute e cb), [])) /\
  (Add (now_trip e) (timeout cb) < now_check e' ->
   returned (Execute e' (after (Execute e cb))) = fn e' /\
   invocations (trace (Execute e' (after (Execute e cb)))) = 1%nat).
Proof.
  intros Htr.
  assert (Hst : state (after (Execute e cb)) = StateOpen)
    by (apply tripped_open; exact Htr).
  assert (Hot : openTimeout (after (Execute e cb))
                = Add (now_trip e) (timeout cb))
    by (rewrite Execute_openTimeout, Htr; reflexivity).
  split.
  - intros Hle. apply Execute_rejected.
    unfold fast_fail, After. rewrite Hst, Hot.
    apply negb_true_iff. apply Z.ltb_ge. exact Hle.
  - intros Hlt. apply Execute_admitted.
    + exact Hst.
    + unfold After. rewrite Hot. apply Z.ltb_lt. exact Hlt.
Qed.

Lemma Execute_after_trip_witness :
  Execute (succeeding 250) (after (Execute (failing 200) cb_half))
    = (Some breaker_open_error, after (Execute (failing 200) cb_half), []).
Proof.
  apply (proj1 (Execute_after_trip (failing 200) (succeeding 250) cb_half
                  ltac:(reflexivity))).
  vm_compute. discriminate.
Defined.

(** ** The hook setters *)

(** X15. Each setter replaces one hook and nothing else: setting a hook
    twice keeps the last callback, and setters of different hooks commute.
    The callback installed is the one invoked afterwards: the one given to
    [SetOnOpen] by a call that trips the breaker, the one given to
    [SetOnClose] by a call that closes it, and the one given to
    [SetOnHalfOpen], before anything else, by a call that finds the breaker
    Open with [openTimeout] passed. *)
Theorem setters_install_hooks (f g : callback) (e : env) (cb : CircuitBreaker) :
  SetOnOpen f cb = set_hooks (Some f) (onClose cb) (onHalfOpen cb) cb /\
  SetOnClose f cb = set_hooks (onOpen cb) (Some f) (onHalfOpen cb) cb /\
  SetOnHalfOpen f cb = set_hooks (onOpen cb) (onClose cb) (Some f) cb /\
  SetOnOpen f (SetOnOpen g cb) = SetOnOpen f cb /\
  SetOnClose f (SetOnClose g cb) = SetOnClose f cb /\
  SetOnHalfOpen f (SetOnHalfOpen g cb) = SetOnHalfOpen f cb /\
  SetOnOpen f (SetOnClose g cb) = SetOnClose g (SetOnOpen f cb) /\
  SetOnOpen f (SetOnHalfOpen g cb) = SetOnHalfOpen g (SetOnOpen f cb) /\
  SetOnClose f (SetOnHalfOpen g cb) = SetOnHalfOpen g (SetOnClose f cb) /\
  (tripped (Execute e (SetOnOpen f cb)) = true ->
   In (EvHook f) (trace (Execute e (SetOnOpen f cb)))) /\
  (closed_by (Execute e (SetOnClose f cb)) = true ->
   In (EvHook f) (trace (Execute e (SetOnClose f cb)))) /\
  (admits_probe e cb = true ->
   exists t, trace (Execute e (SetOnHalfOpen f cb)) = EvHook f :: t).
Proof.
  repeat (split; [reflexivity |]).
  destruct cb as [st cF tF tS mF to oT pT cS mS hO hC hH].
  unfold admits_probe, tripped, closed_by, SetOnOpen, SetOnClose, SetOnHalfOpen.
  split; [| split].
  - destruct st, hC, hH; exec; paths e; cbn; intros H;
      first [discriminate H | tauto].
  - destruct st, hO, hH; exec; paths e; cbn; intros H;
      first [discriminate H | tauto].
  - destruct st; simpl; intros H; try discriminate H.
    exec. rewrite H.
    destruct hO, hC; paths e; eexists; reflexivity.
Qed.

Lemma setters_install_hooks_witness :
  In (EvHook 8%nat) (trace (Execute (failing 200) (SetOnOpen 8%nat cb_half))).
Proof.
  destruct (setters_install_hooks 8%nat 0%nat (failing 200) cb_half)
    as (_ & _ & _ & _ & _ & _ & _ & _ & _ & H & _).
  apply H. reflexivity.
Defined.
